(** * express-js-starter-app: the request-handling surface of [app.js]

    A shallow embedding of the Express application built in [app.js]:
    the layers are listed in the order the file registers them, every
    handler is a function on an explicit request context, and the only
    mutable state outside a request (the files under [public/]) is
    threaded through as a [World].

    The collaborators that [app.js] only calls are kept at their
    interface:
    - Node's [path.extname] and [path.basename] are the two fields of
      the class [NodePath];
    - [axios.get] is the field [upstream] of the world, a function from
      the requested URL to a settled promise;
    - [Date.now()] is read off the uploaded part it is called for;
    - [express.static] is the class [ServeStatic];
    - multer's [upload.array] and Express's router and final handler
      are written out below, as far as [app.js] relies on them. *)

From Stdlib Require Import Ascii.
From stdpp Require Import gmap strings list fin_maps pretty.

Local Open Scope string_scope.
Local Open Scope Z_scope.

(** ** JavaScript values *)

(** The values that travel through [req.body], [res.json] and the
    upstream API.  An object literal keeps the order of its fields. *)
#[warnings="-register-all"]
Inductive jsval : Type :=
  | JUndefined
  | JNull
  | JBool (b : bool)
  | JNum (n : Z)
  | JStr (s : string)
  | JArr (items : list jsval)
  | JObj (fields : list (string * jsval)).

(** [o.k] on an object decoded by a body parser: a missing property
    reads as [undefined]. *)
Definition prop (o : gmap string jsval) (k : string) : jsval :=
  default JUndefined (o !! k).

(** How a template literal renders [process.env.X]: a variable that is
    not set is the value [undefined], which prints as its name. *)
Definition template_env (env : gmap string string) (k : string) : string :=
  default "undefined" (env !! k).

(** JavaScript truthiness of a property that is a string or absent. *)
Definition truthy (s : option string) : bool :=
  match s with
  | Some "" => false
  | Some _ => true
  | None => false
  end.

(** ** Requests, responses and the world around them *)

(** The methods told apart; a HEAD request, which Express answers
    like a GET without its body, is not among them. *)
Inductive method : Type := GET | POST | PUT | DELETE.

Global Instance method_eq_dec : EqDecision method.
Proof. solve_decision. Defined.

(** One file of a multipart body, as busboy hands it to multer.
    [p_now] is what [Date.now()] returns when the storage engine asks
    for this file's name. *)
Record file_part : Type := {
  p_fieldname : string;
  p_originalname : string;
  p_mimetype : string;
  p_data : string;
  p_now : Z
}.

(** The body of a request, by content type, as the parsers took it.
    For the first three the map is the object [express.json()] or
    [express.urlencoded()] leave in [req.body]; for a multipart body it
    holds the text fields.  A body that a parser refuses (malformed,
    too large) or that multer cannot parse is answered with the
    parser's error before any route runs; such a request is not among
    the requests described here. *)
Inductive content : Type :=
  | NoBody
  | JsonBody (o : gmap string jsval)
  | UrlEncoded (o : gmap string jsval)
  | Multipart (o : gmap string jsval) (parts : list file_part).

(** The path as it is on the wire, escapes and all, without the query
    string, split at ["/"] into its segments: [/] is [[]],
    [/parameter-example/a%20b] is [["parameter-example"; "a%20b"]],
    and a slash at the end shows as a last, empty segment.  So no
    segment holds a [/], a [?] or a [#].  Strings are sequences of
    bytes; text outside ASCII is in UTF-8. *)
Record Request : Type := {
  req_method : method;
  req_path : list string;
  req_content : content
}.

(** A promise of [axios.get], once settled. *)
Inductive settled : Type :=
  | Resolved (data : jsval)
  | Rejected (err : jsval).

(** What outlives a request: the process environment, the files on
    disk (directory and file name to contents, relative to the
    directory of [app.js]), and the upstream API. *)
Record World : Type := {
  env : gmap string string;
  disk : gmap (string * string) string;
  upstream : string → settled
}.

Definition set_disk (w : World) (d : gmap (string * string) string) : World :=
  {| env := env w; disk := d; upstream := upstream w |}.

(** The descriptor multer puts in [req.files] for a stored file, less
    its [encoding] and its [path], which is [destination] and
    [filename] joined. *)
Record File : Type := {
  fieldname : string;
  originalname : string;
  mimetype : string;
  destination : string;
  filename : string;
  size : nat
}.

Definition json_of_file (f : File) : jsval :=
  JObj [ ("fieldname", JStr (fieldname f));
         ("originalname", JStr (originalname f));
         ("mimetype", JStr (mimetype f));
         ("destination", JStr (destination f));
         ("filename", JStr (filename f));
         ("size", JNum (Z.of_nat (size f))) ].

Inductive payload : Type :=
  | Text (s : string)             (* res.send of a string *)
  | Json (v : jsval)              (* res.json *)
  | FileBody (bytes : string)     (* res.sendFile, express.static *)
  | ErrorPage (err : jsval)       (* final handler, after next(err) *)
  | NotFound.                     (* final handler, nothing matched *)

Record Response : Type := {
  status : Z;
  payload_of : payload
}.

Definition ok (p : payload) : Response := {| status := 200; payload_of := p |}.

(** The per-request state the layers read and write: [req.params],
    [req.body], [req.files] and the field [res.addedStuff]. *)
Record Ctx : Type := {
  request : Request;
  params : gmap string string;
  body : gmap string jsval;
  files : option (list File);
  addedStuff : option string
}.

Definition fresh (r : Request) : Ctx :=
  {| request := r; params := ∅; body := ∅; files := None; addedStuff := None |}.

Definition set_params (c : Ctx) (p : gmap string string) : Ctx :=
  {| request := request c; params := p; body := body c;
     files := files c; addedStuff := addedStuff c |}.

Definition set_body (c : Ctx) (b : gmap string jsval) : Ctx :=
  {| request := request c; params := params c; body := b;
     files := files c; addedStuff := addedStuff c |}.

Definition set_files (c : Ctx) (fs : list File) : Ctx :=
  {| request := request c; params := params c; body := body c;
     files := Some fs; addedStuff := addedStuff c |}.

Definition set_addedStuff (c : Ctx) (s : string) : Ctx :=
  {| request := request c; params := params c; body := body c;
     files := files c; addedStuff := Some s |}.

(** ** Layers *)

(** What a middleware function does with the request: call [next()],
    call [next(err)], or end the response. *)
Inductive Outcome : Type :=
  | Next (c : Ctx)
  | Throw (err : jsval)
  | Send (r : Response).

Definition Middleware : Type := Ctx → World → Outcome * World.

(** A function that neither reads nor writes the world. *)
Definition pure_mw (f : Ctx → Outcome) : Middleware := λ c w, (f c, w).

(** A function that reads the world and leaves it as it is. *)
Definition reading_mw (f : World → Ctx → Outcome) : Middleware := λ c w, (f w c, w).

(** The functions of one route, in order: [next()] moves on to the
    following one, anything else ends the chain. *)
Fixpoint run_chain (fns : list Middleware) (c : Ctx) (w : World) : Outcome * World :=
  match fns with
  | [] => (Next c, w)
  | f :: rest =>
      match f c w with
      | (Next c', w') => run_chain rest c' w'
      | other => other
      end
  end.

(** *** What the router needs of JavaScript *)

Module uri.

Definition chars (s : string) : list ascii := String.list_ascii_of_string s.
Definition text (l : list ascii) : string := String.string_of_list_ascii l.

(** Letters [A] to [Z] to lower case, every other byte as it is: how
    the router's regular expressions, built with the [i] flag,
    compare with the ASCII text of a route. *)
Definition lower (a : ascii) : ascii :=
  let n := N_of_ascii a in
  if ((65 <=? n) && (n <=? 90))%N then ascii_of_N (n + 32) else a.

Definition same_word (s x : string) : bool :=
  bool_decide (lower <$> chars s = lower <$> chars x).

Definition hex_digit (a : ascii) : option N :=
  let n := N_of_ascii a in
  if ((48 <=? n) && (n <=? 57))%N then Some (n - 48)%N
  else if ((65 <=? n) && (n <=? 70))%N then Some (n - 55)%N
  else if ((97 <=? n) && (n <=? 102))%N then Some (n - 87)%N
  else None.

(** A character as written, or the octet of an escape [%XX]. *)
Inductive item : Type :=
  | Plain (a : ascii)
  | Escaped (b : N).

(** Read the escapes; a [%] not followed by two hex digits is an
    error. *)
Fixpoint scan (l : list ascii) : option (list item) :=
  match l with
  | [] => Some []
  | a :: rest =>
      if bool_decide (a = "%"%char) then
        match rest with
        | hi :: lo :: rest' =>
            match hex_digit hi, hex_digit lo with
            | Some x, Some y => cons (Escaped (16 * x + y)) <$> scan rest'
            | _, _ => None
            end
        | _ => None
        end
      else cons (Plain a) <$> scan rest
  end.

Definition between (lo hi b : N) : bool := ((lo <=? b) && (b <=? hi))%N.

(** The second octet a UTF-8 sequence may have after the lead [b]. *)
Definition second_ok (b c : N) : bool :=
  if (b =? 224)%N then between 160 191 c        (* E0: A0..BF *)
  else if (b =? 237)%N then between 128 159 c   (* ED: 80..9F *)
  else if (b =? 240)%N then between 144 191 c   (* F0: 90..BF *)
  else if (b =? 244)%N then between 128 143 c   (* F4: 80..8F *)
  else between 128 191 c.

Definition tail_ok (c : N) : bool := between 128 191 c.

Definition bytes (l : list N) : list ascii := ascii_of_N <$> l.

(** Put the octets together.  An escaped octet below 128 is a
    character of its own; one from 128 on must lead a well-formed
    UTF-8 sequence whose other octets are escapes too. *)
Fixpoint assemble (items : list item) : option (list ascii) :=
  match items with
  | [] => Some []
  | Plain a :: rest => cons a <$> assemble rest
  | Escaped b :: rest =>
      if (b <? 128)%N then cons (ascii_of_N b) <$> assemble rest
      else if between 194 223 b then
        match rest with
        | Escaped c1 :: rest1 =>
            if tail_ok c1 then (λ l, (bytes [b; c1] ++ l)%list) <$> assemble rest1 else None
        | _ => None
        end
      else if between 224 239 b then
        match rest with
        | Escaped c1 :: Escaped c2 :: rest2 =>
            if second_ok b c1 && tail_ok c2
            then (λ l, (bytes [b; c1; c2] ++ l)%list) <$> assemble rest2 else None
        | _ => None
        end
      else if between 240 244 b then
        match rest with
        | Escaped c1 :: Escaped c2 :: Escaped c3 :: rest3 =>
            if second_ok b c1 && tail_ok c2 && tail_ok c3
            then (λ l, (bytes [b; c1; c2; c3] ++ l)%list) <$> assemble rest3 else None
        | _ => None
        end
      else None
  end.

(** [decodeURIComponent]; [None] where JavaScript throws a
    [URIError]. *)
Definition decodeURIComponent (s : string) : option string :=
  items ← scan (chars s); text <$> assemble items.

End uri.

(** *** The router *)

Inductive segment : Type :=
  | Lit (s : string)
  | Param (name : string).

(** What comes of matching a route against a path: no match, a match
    with its parameters, or a match whose parameter cannot be
    decoded. *)
Inductive matched : Type :=
  | NoMatch
  | Matched (ps : gmap string string)
  | Undecodable (seg : string).

(** Match a route pattern against the whole path.  Text is compared
    without regard to case, one slash at the end of the path is let
    pass, a parameter takes one non-empty segment and is decoded once
    the whole path has matched. *)
Fixpoint match_route (pat : list segment) (path : list string) : matched :=
  match pat, path with
  | [], [] => Matched ∅
  | [], [x] => if decide (x = "") then Matched ∅ else NoMatch
  | Lit s :: pat', x :: path' =>
      if uri.same_word s x then match_route pat' path' else NoMatch
  | Param n :: pat', x :: path' =>
      if decide (x = "") then NoMatch
      else
        match match_route pat' path' with
        | Matched ps =>
            match uri.decodeURIComponent x with
            | Some v => Matched (<[n := v]> ps)
            | None => Undecodable x
            end
        | other => other
        end
  | _, _ => NoMatch
  end.

(** The error the router raises for a parameter it cannot decode. *)
Definition decode_failed (seg : string) : jsval :=
  JObj [ ("name", JStr "URIError");
         ("message", JStr ("Failed to decode param '" +:+ seg +:+ "'"));
         ("status", JNum 400);
         ("statusCode", JNum 400) ].

(** Match a mount point against the front of the path, without regard
    to case; the result is the rest of the path. *)
Fixpoint match_prefix (mount : list string) (path : list string)
    : option (list string) :=
  match mount, path with
  | [], _ => Some path
  | s :: mount', x :: path' =>
      if uri.same_word s x then match_prefix mount' path' else None
  | _ :: _, [] => None
  end.

Inductive Layer : Type :=
  | Use (mount : list string) (f : list string → Middleware)
  | Route (m : method) (pat : list segment) (fns : list Middleware).

(** Walk down the stack of the application.  A layer that does not
    match is skipped; a layer that calls [next()] hands over to the
    layers below it.  A route is matched by its path first and by its
    method after; a parameter that cannot be decoded ends the walk
    with the router's error, since an error passes by every layer
    that is not an error handler and [app.js] has none. *)
Fixpoint run_stack (stack : list Layer) (c : Ctx) (w : World) : Outcome * World :=
  match stack with
  | [] => (Next c, w)
  | Use mount f :: below =>
      match match_prefix mount (req_path (request c)) with
      | Some rest =>
          match f rest c w with
          | (Next c', w') => run_stack below c' w'
          | other => other
          end
      | None => run_stack below c w
      end
  | Route m pat fns :: below =>
      match match_route pat (req_path (request c)) with
      | Matched ps =>
          if decide (req_method (request c) = m) then
            match run_chain fns (set_params c ps) w with
            | (Next c', w') => run_stack below (set_params c' ∅) w'
            | other => other
            end
          else run_stack below c w
      | Undecodable seg => (Throw (decode_failed seg), w)
      | NoMatch => run_stack below c w
      end
  end.

(** Express's final handler.  Nothing matched gives 404.  An error gives
    its [status], else its [statusCode], when that is a number in the
    error range, and 500 otherwise. *)
Fixpoint field (k : string) (fields : list (string * jsval)) : jsval :=
  match fields with
  | [] => JUndefined
  | (k', v) :: rest => if decide (k' = k) then v else field k rest
  end.

Definition error_code (v : jsval) : option Z :=
  match v with
  | JNum n => if decide (400 ≤ n < 600) then Some n else None
  | _ => None
  end.

Definition error_status (err : jsval) : Z :=
  match err with
  | JObj fields =>
      match error_code (field "status" fields) with
      | Some n => n
      | None => default 500 (error_code (field "statusCode" fields))
      end
  | _ => 500
  end.

Definition finalhandler (o : Outcome) : Response :=
  match o with
  | Send r => r
  | Throw err => {| status := error_status err; payload_of := ErrorPage err |}
  | Next _ => {| status := 404; payload_of := NotFound |}
  end.

(** ** Collaborators of [app.js] *)

(** Node's [path] module, as far as [app.js] calls it. *)
Class NodePath : Type := {
  extname : string → string;
  basename : string → string → string
}.

(** The [serve-static] library behind [express.static]: from the root
    directory, the files on the disk and the rest of the path below
    the mount point to the answer it gives, or to [None] where it
    calls [next()].  How it treats escapes, hidden files, directories
    and index pages is its own affair. *)
Class ServeStatic : Type :=
  serve_static : string → gmap (string * string) string → list string → option Response.

(** [morgan("dev")] writes a line to the process log and moves on.
    Nothing in the application reads the log back, so it is not part
    of the world. *)
Definition morgan_dev : Middleware := pure_mw Next.

(** [express.json()] and [express.urlencoded({ extended: true })] each
    fill [req.body] for their own content type and move on. *)
Definition express_json : Middleware :=
  pure_mw (λ c,
    match req_content (request c) with
    | JsonBody o => Next (set_body c o)
    | _ => Next c
    end).

Definition express_urlencoded : Middleware :=
  pure_mw (λ c,
    match req_content (request c) with
    | UrlEncoded o => Next (set_body c o)
    | _ => Next c
    end).

(** [express.static(root)]: a GET below the mount point is handed to
    [serve-static]; every other method passes. *)
Definition express_static `{ServeStatic} (root : string) (rest : list string)
    : Middleware :=
  reading_mw (λ w c,
    match req_method (request c) with
    | GET =>
        match serve_static root (disk w) rest with
        | Some answer => Send answer
        | None => Next c
        end
    | _ => Next c
    end).

(** *** multer *)

(** What multer passes to [next] when a file arrives that the field
    configuration has no room for. *)
Definition LIMIT_UNEXPECTED_FILE (field : string) : jsval :=
  JObj [ ("name", JStr "MulterError");
         ("message", JStr "Unexpected field");
         ("code", JStr "LIMIT_UNEXPECTED_FILE");
         ("field", JStr field) ].

Inductive verdict : Type :=
  | Accepted (stored : list File) (d : gmap (string * string) string)
  | Aborted (err : jsval) (d : gmap (string * string) string).

(** When an upload is aborted multer unlinks what it has stored. *)
Definition remove_uploaded (stored : list File) (d : gmap (string * string) string)
    : gmap (string * string) string :=
  foldr (λ f d', delete (destination f, filename f) d') d stored.

Section Application.

Context `{NodePath} `{ServeStatic}.

(** ** [multer.diskStorage({ destination, filename })] *)

Definition storage_destination (p : file_part) : string := "public/uploads".

Definition storage_filename (p : file_part) : string :=
  let extension := extname (p_originalname p) in
  let basenameWithoutExtension := basename (p_originalname p) extension in
  basenameWithoutExtension +:+ "-" +:+ pretty (p_now p) +:+ extension.

(** The disk storage engine: ask the two callbacks, write the file
    there, describe it. *)
Definition handle_file (p : file_part) : File :=
  {| fieldname := p_fieldname p;
     originalname := p_originalname p;
     mimetype := p_mimetype p;
     destination := storage_destination p;
     filename := storage_filename p;
     size := String.length (p_data p) |}.

(** The files of a multipart body, in order of arrival.  [filesLeft]
    counts down per field name; a part without a file name is not a
    file; a file for a field with nothing left aborts the upload.
    Failures of the storage engine (no [public/uploads], a full disk)
    are not described.  Each file is written to its own path; where
    two files of one request share a path, the later insert stands for
    whatever their two write streams leave there. *)
Fixpoint receive (filesLeft : gmap string nat) (parts : list file_part)
    (stored : list File) (d : gmap (string * string) string) : verdict :=
  match parts with
  | [] => Accepted stored d
  | p :: later =>
      if decide (p_originalname p = "") then receive filesLeft later stored d
      else
        match default 0%nat (filesLeft !! p_fieldname p) with
        | O => Aborted (LIMIT_UNEXPECTED_FILE (p_fieldname p)) (remove_uploaded stored d)
        | S n =>
            let f := handle_file p in
            receive (<[p_fieldname p := n]> filesLeft) later (stored ++ [f])
                    (<[(destination f, filename f) := p_data p]> d)
        end
  end.

(** [upload.array(name, maxCount)]: anything but a multipart body
    passes untouched. *)
Definition upload_array (name : string) (maxCount : nat) : Middleware :=
  λ c w,
    match req_content (request c) with
    | Multipart o parts =>
        match receive {[ name := maxCount ]} parts [] (disk w) with
        | Accepted stored d => (Next (set_files (set_body c o) stored), set_disk w d)
        | Aborted err d => (Throw err, set_disk w d)
        end
    | _ => (Next c, w)
    end.

(** ** The route handlers of [app.js] *)

Definition root : Middleware :=
  pure_mw (λ c, Send (ok (Text "Goodbye world!"))).

Definition html_example : Middleware :=
  reading_mw (λ w c,
    match disk w !! ("public", "some-page.html") with
    | Some bytes => Send (ok (FileBody bytes))
    | None => Throw (JObj [ ("status", JNum 404); ("code", JStr "ENOENT") ])
    end).

Definition json_example : Middleware :=
  pure_mw (λ c,
    let body :=
      JObj [ ("title", JStr "Hello!");
             ("heading", JStr "Hello!");
             ("message", JStr "Welcome to this JSON document, served up by Express");
             ("imagePath", JStr "/static/images/donkey.jpg") ] in
    Send (ok (Json body))).

Definition first_middleware : Middleware :=
  pure_mw (λ c, Next (set_addedStuff c "First middleware function run!")).

(** [res.addedStuff += ...]: a field that was never set is [undefined]
    and takes part in the concatenation under that name. *)
Definition second_middleware : Middleware :=
  pure_mw (λ c,
    Next (set_addedStuff c
            (default "undefined" (addedStuff c) +:+ " Second middleware function run!"))).

Definition middleware_example : Middleware :=
  pure_mw (λ c,
    let message :=
      if truthy (addedStuff c) then default "" (addedStuff c)
      else "Sorry, the middleware did not work!" in
    Send (ok (Text message))).

Definition post_example : Middleware :=
  pure_mw (λ c,
    let data :=
      JObj [ ("status", JStr "amazing success!");
             ("message", JStr "congratulations on sending us this data!");
             ("your_data",
              JObj [ ("name", prop (body c) "your_name");
                     ("email", prop (body c) "your_email");
                     ("agree", prop (body c) "agree") ]) ] in
    Send (ok (Json data))).

Definition you_fail : jsval :=
  JObj [ ("status", JStr "you fail!!!");
         ("message", JStr "rejected your files... try harder") ].

Definition all_good (fs : list File) : jsval :=
  JObj [ ("status", JStr "all good");
         ("message", JStr "files were uploaded!!!");
         ("files", JArr (json_of_file <$> fs)) ].

Definition upload_example : Middleware :=
  pure_mw (λ c,
    match files c with
    | None => Send (ok (Json you_fail))
    | Some fs =>
        if decide (length fs = 0)%nat then Send (ok (Json you_fail))
        else if decide (3 < length fs)%nat then Send (ok (Json you_fail))
        else Send (ok (Json (all_good fs)))
    end).

Definition proxy_example : Middleware :=
  reading_mw (λ w c,
    match upstream w "https://my.api.mockaroo.com/animals.json?key=d9ddfc40&num=10" with
    | Resolved data => Send (ok (Json data))
    | Rejected err => Throw err
    end).

Definition setup_instructions : string :=
  "Oops... In order to use the dotenv module, you must first make a file named .env on your server - see the .env.example file for example.".

Definition dotenv_url (w : World) : string :=
  template_env (env w) "API_BASE_URL" +:+ "?key="
    +:+ template_env (env w) "API_SECRET_KEY" +:+ "&num=10".

Definition dotenv_example : Middleware :=
  reading_mw (λ w c,
    match upstream w (dotenv_url w) with
    | Resolved data => Send (ok (Json data))
    | Rejected _ =>
        Send (ok (Json (JObj [ ("success", JBool false);
                               ("error", JStr setup_instructions) ])))
    end).

(** [req.params.animalId], in a template literal and as a value. *)
Definition animalId_text (c : Ctx) : string :=
  default "undefined" (params c !! "animalId").

Definition animalId_value (c : Ctx) : jsval :=
  from_option JStr JUndefined (params c !! "animalId").

Definition parameter_url (w : World) (c : Ctx) : string :=
  template_env (env w) "API_BASE_URL" +:+ "?key="
    +:+ template_env (env w) "API_SECRET_KEY" +:+ "&num=1&id=" +:+ animalId_text c.

Definition parameter_example : Middleware :=
  reading_mw (λ w c,
    match upstream w (parameter_url w c) with
    | Resolved data =>
        let responseData :=
          JObj [ ("status", JStr "wonderful");
                 ("message",
                  JStr ("Imagine we got the data from the API for animal #"
                          +:+ animalId_text c));
                 ("animalId", animalId_value c);
                 ("animal", data) ] in
        Send (ok (Json responseData))
    | Rejected err => Send (ok (Json err))
    end).

(** ** The application: the layers in the order [app.js] adds them *)

Definition app : list Layer :=
  [ Use [] (λ _, morgan_dev);
    Use [] (λ _, express_json);
    Use [] (λ _, express_urlencoded);
    Use ["static"] (express_static "public");
    Route GET [] [root];
    Route GET [Lit "html-example"] [html_example];
    Route GET [Lit "json-example"] [json_example];
    Use ["middleware-example"] (λ _, first_middleware);
    Use ["middleware-example"] (λ _, second_middleware);
    Route GET [Lit "middleware-example"] [middleware_example];
    Route POST [Lit "post-example"] [post_example];
    Route POST [Lit "upload-example"] [upload_array "my_files" 3; upload_example];
    Route GET [Lit "proxy-example"] [proxy_example];
    Route GET [Lit "dotenv-example"] [dotenv_example];
    Route GET [Lit "parameter-example"; Param "animalId"] [parameter_example] ].

(** One request, from a fresh context to the response on the wire. *)
Definition serve (w : World) (r : Request) : Response * World :=
  let '(o, w') := run_stack app (fresh r) w in (finalhandler o, w').

End Application.

(** ** Node's POSIX [path] functions *)

Module posix.

Definition chars (s : string) : list ascii := String.list_ascii_of_string s.
Definition text (l : list ascii) : string := String.string_of_list_ascii l.

Definition is_slash (a : ascii) : bool := bool_decide (a = "/"%char).

Fixpoint drop_slashes (l : list ascii) : list ascii :=
  match l with
  | a :: l' => if is_slash a then drop_slashes l' else l
  | [] => []
  end.

Fixpoint until_slash (l : list ascii) : list ascii :=
  match l with
  | a :: l' => if is_slash a then [] else a :: until_slash l'
  | [] => []
  end.

(** The last component of a path, read from its end: trailing
    separators are ignored. *)
Definition component (p : string) : list ascii :=
  reverse (until_slash (drop_slashes (reverse (chars p)))).

(** Split a component at its last dot; the dot goes with the tail. *)
Fixpoint split_last_dot (l : list ascii) : option (list ascii * list ascii) :=
  match l with
  | [] => None
  | a :: l' =>
      match split_last_dot l' with
      | Some (stem, ext) => Some (a :: stem, ext)
      | None => if bool_decide (a = "."%char) then Some ([], l) else None
      end
  end.

(** [path.extname]: from the last dot of the last component to its
    end; empty when there is no dot, when the only dot leads the
    component, and for [..]. *)
Definition extname (p : string) : string :=
  let c := component p in
  match split_last_dot c with
  | Some (stem, ext) =>
      if bool_decide (stem = []) then ""
      else if bool_decide (text c = "..") then ""
      else text ext
  | None => ""
  end.

(** Drop [suffix] from the end of [l] when it is a proper tail of it. *)
Fixpoint strip_suffix (suffix l : list ascii) : option (list ascii) :=
  match l with
  | [] => None
  | a :: l' =>
      if bool_decide (l' = suffix) then Some [a]
      else cons a <$> strip_suffix suffix l'
  end.

(** [path.basename(p, suffix)]: the last component, without the
    suffix when it ends in it and is more than it. *)
Definition basename (p suffix : string) : string :=
  if bool_decide (p = suffix) then ""
  else
    let c := component p in
    match suffix with
    | "" => text c
    | _ => text (default c (strip_suffix (chars suffix) c))
    end.

End posix.

Definition posix_path : NodePath :=
  {| extname := posix.extname; basename := posix.basename |}.

(** ** A stand-in for [serve-static] *)

(** Used where the properties below are tried on concrete requests:
    it answers for the files whose path is made of plain segments
    (letters, digits, [-], [_] and [.], not starting with a dot) and
    passes on everything else. *)
Definition plain_char (a : ascii) : bool :=
  let n := N_of_ascii a in
  uri.between 48 57 n || uri.between 65 90 n || uri.between 97 122 n
  || bool_decide (a = "-"%char) || bool_decide (a = "_"%char)
  || bool_decide (a = "."%char).

Definition plain_segment (s : string) : bool :=
  match uri.chars s with
  | [] => false
  | a :: l => negb (bool_decide (a = "."%char)) && forallb plain_char (a :: l)
  end.

Definition plain_files : ServeStatic :=
  λ root d rest,
    match reverse rest with
    | name :: dirs =>
        if forallb plain_segment rest
        then (λ bytes, ok (FileBody bytes))
               <$> d !! (String.concat "/" (root :: reverse dirs), name)
        else None
    | [] => None
    end.

(** * Vocabulary of the properties *)

(** Requests by method and path. *)
Definition get (path : list string) (ct : content) : Request :=
  {| req_method := GET; req_path := path; req_content := ct |}.

Definition post (path : list string) (ct : content) : Request :=
  {| req_method := POST; req_path := path; req_content := ct |}.

(** A run of requests, each served in the world the one before left. *)
Fixpoint serve_all `{NodePath} `{ServeStatic} (w : World) (rs : list Request) : list Response * World :=
  match rs with
  | [] => ([], w)
  | r :: later =>
      let '(resp, w') := serve w r in
      let '(resps, w'') := serve_all w' later in
      (resp :: resps, w'')
  end.

(** The object [/json-example] is expected to send. *)
Definition json_example_body : jsval :=
  JObj [ ("title", JStr "Hello!");
         ("heading", JStr "Hello!");
         ("message", JStr "Welcome to this JSON document, served up by Express");
         ("imagePath", JStr "/static/images/donkey.jpg") ].

(** What the two middleware functions leave in [res.addedStuff],
    without the space the second one puts in between. *)
Definition first_marker : string := "First middleware function run!".
Definition second_marker : string := "Second middleware function run!".

(** What [/html-example] answers in a given world: the page when it
    is on the disk, the final handler's 404 when it is not. *)
Definition html_example_response (w : World) : Response :=
  match disk w !! ("public", "some-page.html") with
  | Some bytes => ok (FileBody bytes)
  | None =>
      {| status := 404;
         payload_of := ErrorPage (JObj [ ("status", JNum 404); ("code", JStr "ENOENT") ]) |}
  end.

(** The GET routes that do not call out of the process. *)
Definition local_gets : list (list string) :=
  [ []; ["html-example"]; ["json-example"]; ["middleware-example"] ].

(** The one response of each of them. *)
Definition local_response (w : World) (path : list string) : Response :=
  match path with
  | [] => ok (Text "Goodbye world!")
  | ["html-example"] => html_example_response w
  | ["json-example"] => ok (Json json_example_body)
  | _ => ok (Text (first_marker +:+ " " +:+ second_marker))
  end.

(** [r] is a GET request to [path], whatever else it carries. *)
Definition is_get (path : list string) (r : Request) : Prop :=
  req_method r = GET ∧ req_path r = path.

(** The parts of a multipart body that carry a file. *)
Definition files_of (parts : list file_part) : list file_part :=
  filter (λ p, p_originalname p ≠ "") parts.

(** What storing one file does to the disk. *)
Definition write `{NodePath} (d : gmap (string * string) string) (p : file_part)
    : gmap (string * string) string :=
  <[(storage_destination p, storage_filename p) := p_data p]> d.

(** ** Vocabulary for the properties of the whole application *)

(** The URL [/proxy-example] asks, whatever the environment says. *)
Definition proxy_url : string :=
  "https://my.api.mockaroo.com/animals.json?key=d9ddfc40&num=10".


(** A segment of a path: what lies between two slashes, before the
    query string. *)
Definition path_segment (x : string) : Prop :=
  Forall (λ a : ascii, a ≠ "/"%char ∧ a ≠ "?"%char ∧ a ≠ "#"%char) (uri.chars x).

(** The path of [r] matches the pattern [pat], parameters and all. *)
Definition routed (pat : list segment) (r : Request) : Prop :=
  ∃ ps, match_route pat (req_path r) = Matched ps.



(** [r] is a multipart POST to [/upload-example]. *)
Definition is_upload (r : Request) : Prop :=
  req_method r = POST ∧ routed [Lit "upload-example"] r
  ∧ ∃ o parts, req_content r = Multipart o parts.




(** Where a stored file is on the disk. *)
Definition key_of (f : File) : string * string := (destination f, filename f).

(** Two worlds that differ at most in the files under
    [public/uploads]. *)
Definition outside_uploads (w w' : World) : Prop :=
  env w' = env w ∧ upstream w' = upstream w
  ∧ ∀ dir name, dir ≠ "public/uploads" → disk w' !! (dir, name) = disk w !! (dir, name).

(** A middleware function that, on request [r], takes the world only
    to worlds related by [R] and hands the same request on. *)
Definition respects (r : Request) (R : relation World) (f : Middleware) : Prop :=
  ∀ c w o w',
    request c = r → f c w = (o, w') →
    R w w' ∧ ∀ c', o = Next c' → request c' = r.

Definition layer_respects (r : Request) (R : relation World) (l : Layer) : Prop :=
  match l with
  | Use mount f => ∀ rest, respects r R (f rest)
  | Route m pat fns =>
      req_method r = m → routed pat r → Forall (respects r R) fns
  end.



(** ** Sample worlds and requests *)

(** A server whose environment names the upstream API, and one set up
    without a [.env] file, for which every upstream call fails. *)
Definition donkey : jsval :=
  JArr [ JObj [ ("id", JNum 1); ("common_name", JStr "Donkey") ] ].

Definition invalid_url : jsval :=
  JObj [ ("message", JStr "Invalid URL"); ("name", JStr "TypeError") ].

Definition configured_world : World :=
  {| env := {[ "API_BASE_URL" := "https://my.api.mockaroo.com/animals.json";
               "API_SECRET_KEY" := "d9ddfc40" ]};
     disk := {[ ("public", "some-page.html") := "<h1>Hello!</h1>" ]};
     upstream := λ url,
       if String.prefix "https://" url then Resolved donkey else Rejected invalid_url |}.

Definition bare_world : World :=
  {| env := ∅;
     disk := {[ ("public", "some-page.html") := "<h1>Hello!</h1>" ]};
     upstream := λ url,
       if String.prefix "https://" url then Resolved donkey else Rejected invalid_url |}.

(** A file sent in the field the route expects. *)
Definition my_file (name : string) (now : Z) : file_part :=
  {| p_fieldname := "my_files"; p_originalname := name;
     p_mimetype := "image/jpeg"; p_data := "JFIF"; p_now := now |}.

Definition two_uploads : list file_part :=
  [ my_file "donkey.jpg" 1700000000000; my_file "notes.tar.gz" 1700000000001 ].

Definition four_uploads : list file_part :=
  [ my_file "a.jpg" 1700000000000; my_file "b.jpg" 1700000000001;
    my_file "c.jpg" 1700000000002; my_file "d.jpg" 1700000000003 ].


Definition stray : file_part :=
  {| p_fieldname := "avatar"; p_originalname := "b.jpg";
     p_mimetype := "image/jpeg"; p_data := "JFIF"; p_now := 1700000000001 |}.

(** The form the repository's test posts to [/post-example]. *)
Definition test_form : gmap string jsval :=
  {[ "your_name" := JStr "Foo";
     "your_email" := JStr "fb1258@nyu.edu";
     "agree" := JStr "true" ]}.


Definition after_two_uploads : World :=
  set_disk configured_world
    {[ ("public", "some-page.html") := "<h1>Hello!</h1>";
       ("public/uploads", "donkey-1700000000000.jpg") := "JFIF";
       ("public/uploads", "notes.tar-1700000000001.gz") := "JFIF" ]}.


(** * Properties of the application *)

Section Routes.

Context `{NodePath} `{ServeStatic}.

(** The logger and the body parsers hand every request on; what they
    leave behind is [req.body]. *)
Lemma parsers_pass (r : Request) (below : list Layer) (w : World) :
  ∃ b, run_stack (Use [] (λ _, morgan_dev) :: Use [] (λ _, express_json)
                    :: Use [] (λ _, express_urlencoded) :: below) (fresh r) w
       = run_stack below (set_body (fresh r) b) w.
Proof.
  destruct r as [m p [|o|o|o parts]].
  - by exists ∅.
  - by exists o.
  - by exists o.
  - by exists ∅.
Qed.

Lemma serve_parsed (w : World) (r : Request) :
  ∃ b, serve w r =
       let '(o, w') := run_stack (drop 3 app) (set_body (fresh r) b) w in
       (finalhandler o, w').
Proof.
  destruct (parsers_pass r (drop 3 app) w) as [b Hb].
  exists b. unfold serve. by rewrite <- Hb.
Qed.

(** One step of the walk down the stack, for a route. *)
Lemma run_stack_route_hit (m : method) (pat : list segment) (fns : list Middleware)
    (below : list Layer) (c : Ctx) (w : World) (ps : gmap string string) :
  req_method (request c) = m →
  match_route pat (req_path (request c)) = Matched ps →
  run_stack (Route m pat fns :: below) c w =
    match run_chain fns (set_params c ps) w with
    | (Next c', w') => run_stack below (set_params c' ∅) w'
    | other => other
    end.
Proof. intros Hm Hp. cbn [run_stack]. rewrite Hp. by rewrite decide_True. Qed.

Lemma run_stack_route_miss (m : method) (pat : list segment) (fns : list Middleware)
    (below : list Layer) (c : Ctx) (w : World) :
  match_route pat (req_path (request c)) = NoMatch
  ∨ ((∃ ps, match_route pat (req_path (request c)) = Matched ps)
     ∧ req_method (request c) ≠ m) →
  run_stack (Route m pat fns :: below) c w = run_stack below c w.
Proof.
  intros [Hp|[[ps Hp] Hm]]; cbn [run_stack]; rewrite Hp; [done|].
  by rewrite decide_False.
Qed.




(** ** [GET /] *)

(** C10.  Every GET request to the root route [/] is answered with
    status 200 and the exact body ["Goodbye world!"], whatever the
    request carries and whatever the state of the world, which it
    leaves as it was. *)
Theorem root_says_goodbye (w : World) (ct : content) :
  serve w (get [] ct) = ({| status := 200; payload_of := Text "Goodbye world!" |}, w).
Proof.
  destruct (serve_parsed w (get [] ct)) as [b ->].
  reflexivity.
Qed.

(** ** [GET /json-example] *)

(** C9.  Every GET to [/json-example] is answered with status 200 and
    the fixed JSON object of the four fields title, heading, message
    and imagePath, whose title is ["Hello!"] and whose imagePath is
    ["/static/images/donkey.jpg"]. *)
Theorem json_example_fixed_object (w : World) (ct : content) :
  serve w (get ["json-example"] ct)
    = ({| status := 200; payload_of := Json json_example_body |}, w)
  ∧ (∃ fields, json_example_body = JObj fields
       ∧ fields.*1 = ["title"; "heading"; "message"; "imagePath"]
       ∧ field "title" fields = JStr "Hello!"
       ∧ field "imagePath" fields = JStr "/static/images/donkey.jpg").
Proof.
  split.
  - destruct (serve_parsed w (get ["json-example"] ct)) as [b ->].
    reflexivity.
  - eexists. split; [reflexivity|]. by repeat split.
Qed.

(** ** [GET /middleware-example] *)

(** With nothing in [res.addedStuff] the handler falls back. *)
Lemma middleware_example_fallback (c : Ctx) (w : World) :
  truthy (addedStuff c) = false →
  middleware_example c w = (Send (ok (Text "Sorry, the middleware did not work!")), w).
Proof. intros Hc. unfold middleware_example, pure_mw. by rewrite Hc. Qed.

(** The two middleware functions do not commute: the first assigns,
    the second appends. *)
Lemma middleware_order_matters (c : Ctx) (w : World) :
  run_chain [second_middleware; first_middleware; middleware_example] c w
  = (Send (ok (Text first_marker)), w).
Proof. reflexivity. Qed.

(** C5.  A GET to [/middleware-example] runs the two middleware
    functions registered for that prefix in registration order before
    the handler; both write the one field [res.addedStuff], so the
    body is the first marker followed by the second.  A handler that
    finds the field unset, because no middleware ran, sends the
    fallback message instead. *)
Theorem middleware_example_in_order (w : World) (ct : content) (c : Ctx) :
  addedStuff c = None →
  serve w (get ["middleware-example"] ct)
    = (ok (Text (first_marker +:+ " " +:+ second_marker)), w)
  ∧ run_chain [first_middleware; second_middleware; middleware_example] c w
    = (Send (ok (Text (first_marker +:+ " " +:+ second_marker))), w)
  ∧ middleware_example c w
    = (Send (ok (Text "Sorry, the middleware did not work!")), w).
Proof.
  intros Hc. split; [|split].
  - destruct (serve_parsed w (get ["middleware-example"] ct)) as [b ->].
    reflexivity.
  - reflexivity.
  - apply middleware_example_fallback. by rewrite Hc.
Qed.

(** ** [POST /post-example] *)

(** C6.  A POST to [/post-example] whose form-urlencoded body decodes
    to the strings [name], [email] and [agree] under [your_name],
    [your_email] and [agree] is answered with status
    ["amazing success!"] and with [your_data] holding exactly these
    three strings. *)
Theorem post_example_echoes (w : World) (o : gmap string jsval) (name email agree : string) :
  o !! "your_name" = Some (JStr name) →
  o !! "your_email" = Some (JStr email) →
  o !! "agree" = Some (JStr agree) →
  serve w (post ["post-example"] (UrlEncoded o))
  = (ok (Json (JObj [ ("status", JStr "amazing success!");
                      ("message", JStr "congratulations on sending us this data!");
                      ("your_data", JObj [ ("name", JStr name);
                                           ("email", JStr email);
                                           ("agree", JStr agree) ]) ])), w).
Proof.
  intros Hn He Ha.
  assert (serve w (post ["post-example"] (UrlEncoded o))
          = (ok (Json (JObj [ ("status", JStr "amazing success!");
                   ("message", JStr "congratulations on sending us this data!");
                   ("your_data", JObj [ ("name", prop o "your_name");
                                        ("email", prop o "your_email");
                                        ("agree", prop o "agree") ]) ])), w))
    as -> by reflexivity.
  unfold prop. by rewrite Hn, He, Ha.
Qed.

(** ** The routes that call the upstream API *)





(** ** Repeated GET requests *)

Lemma html_example_serves_page (w : World) (ct : content) :
  serve w (get ["html-example"] ct) = (html_example_response w, w).
Proof.
  destruct (serve_parsed w (get ["html-example"] ct)) as [b ->].
  set (c := set_body _ b).
  assert (run_stack (drop 3 app) c w = run_chain [html_example] (set_params c ∅) w)
    as ->.
  { transitivity (run_stack (drop 5 app) c w); [reflexivity|].
    cbn [drop app]. rewrite (run_stack_route_hit _ _ _ _ _ _ ∅) by reflexivity.
    cbn [run_chain html_example reading_mw].
    by destruct (disk w !! _). }
  cbn [run_chain html_example reading_mw]. unfold html_example_response.
  by destruct (disk w !! _).
Qed.

Lemma local_get_once (w : World) (path : list string) (ct : content) :
  path ∈ local_gets → serve w (get path ct) = (local_response w path, w).
Proof.
  unfold local_gets. rewrite !elem_of_cons, elem_of_nil.
  intros [->|[->|[->|[->|[]]]]].
  - destruct (serve_parsed w (get [] ct)) as [b ->]. reflexivity.
  - apply html_example_serves_page.
  - destruct (serve_parsed w (get ["json-example"] ct)) as [b ->]. reflexivity.
  - destruct (serve_parsed w (get ["middleware-example"] ct)) as [b ->]. reflexivity.
Qed.

Lemma local_get_run (w : World) (path : list string) (rs : list Request) :
  path ∈ local_gets → Forall (is_get path) rs →
  serve_all w rs = (replicate (length rs) (local_response w path), w).
Proof.
  intros Hpath Hrs. induction Hrs as [|r rs [Hm Hp] _ IH]; [done|].
  destruct r as [m p ct]; cbn in Hm, Hp; subst m p.
  cbn [serve_all length replicate].
  change {| req_method := GET; req_path := path; req_content := ct |} with (get path ct).
  by rewrite (local_get_once w path ct Hpath), IH.
Qed.

(** C8.  Each of the GET routes [/], [/html-example], [/json-example]
    and [/middleware-example] is deterministic and leaves no trace:
    in a given world every GET to the route gets one and the same
    response, and any run of such requests, one after the other,
    gets that response every time and ends in the world it started
    in. *)
Theorem local_gets_idempotent (w : World) (path : list string) :
  path ∈ local_gets →
  ∃ resp,
    (∀ ct, serve w (get path ct) = (resp, w))
    ∧ (∀ rs, Forall (is_get path) rs →
         serve_all w rs = (replicate (length rs) resp, w)).
Proof.
  intros Hpath. exists (local_response w path). split.
  - intros ct. by apply local_get_once.
  - intros rs. by apply local_get_run.
Qed.

(** ** [POST /upload-example] *)

Lemma files_of_cons_file (p : file_part) (parts : list file_part) :
  p_originalname p ≠ "" → files_of (p :: parts) = p :: files_of parts.
Proof. intros Hp. unfold files_of. by rewrite filter_cons_True. Qed.

Lemma files_of_cons_skip (p : file_part) (parts : list file_part) :
  p_originalname p = "" → files_of (p :: parts) = files_of parts.
Proof. intros Hp. unfold files_of. rewrite filter_cons_False; [done|]. by intros []. Qed.

(** An upload within the limit goes through: every file is stored, in
    order of arrival. *)
Lemma receive_fits (name : string) (parts : list file_part) :
  ∀ (n : nat) (stored : list File) (d : gmap (string * string) string),
    Forall (λ p, p_fieldname p = name) (files_of parts) →
    (length (files_of parts) ≤ n)%nat →
    receive {[ name := n ]} parts stored d
    = Accepted (stored ++ (handle_file <$> files_of parts))
               (foldl write d (files_of parts)).
Proof.
  induction parts as [|p parts IH]; intros n stored d Hname Hlen.
  - cbn. by rewrite app_nil_r.
  - cbn [receive]. destruct (decide (p_originalname p = "")) as [Hp|Hp].
    + rewrite files_of_cons_skip in * by done. by apply IH.
    + rewrite files_of_cons_file in * by done.
      apply Forall_cons in Hname as [Hf Hname]. cbn [length] in Hlen.
      rewrite Hf, lookup_singleton_eq.
      destruct n as [|n]; [lia|]. cbn [from_option id].
      rewrite insert_singleton_eq, IH by (done || lia).
      cbn [fmap list_fmap foldl]. by rewrite <- app_assoc.
Qed.

(** An upload that goes through was within the limit. *)
Lemma receive_accepted (name : string) (parts : list file_part) :
  ∀ (n : nat) (stored stored' : list File) (d d' : gmap (string * string) string),
    receive {[ name := n ]} parts stored d = Accepted stored' d' →
    Forall (λ p, p_fieldname p = name) (files_of parts)
    ∧ (length (files_of parts) ≤ n)%nat.
Proof.
  induction parts as [|p parts IH]; intros n stored stored' d d' Hrec.
  - split; [constructor|cbn; lia].
  - cbn [receive] in Hrec. destruct (decide (p_originalname p = "")) as [Hp|Hp].
    + rewrite files_of_cons_skip by done. by eapply IH.
    + rewrite files_of_cons_file by done.
      destruct (decide (p_fieldname p = name)) as [Hf|Hf].
      * rewrite Hf, lookup_singleton_eq in Hrec.
        destruct n as [|n]; [done|]. cbn [from_option id] in Hrec.
        rewrite insert_singleton_eq in Hrec.
        apply IH in Hrec as [Hname Hlen]. split; [by constructor|cbn; lia].
      * rewrite lookup_singleton_ne in Hrec by done. done.
Qed.

(** Every stored file stays on the disk while the upload goes on. *)
Lemma foldl_write_keeps (ps : list file_part) :
  ∀ (d : gmap (string * string) string) (k : string * string),
    is_Some (d !! k) → is_Some (foldl write d ps !! k).
Proof.
  induction ps as [|p ps IH]; intros d k Hk; [done|].
  cbn [foldl]. apply IH. unfold write.
  destruct (decide ((storage_destination p, storage_filename p) = k)) as [<-|Hne].
  - rewrite lookup_insert_eq. eauto.
  - by rewrite lookup_insert_ne.
Qed.

Lemma foldl_write_stored (ps : list file_part) (p : file_part) :
  ∀ d : gmap (string * string) string,
    p ∈ ps → is_Some (foldl write d ps !! (storage_destination p, storage_filename p)).
Proof.
  induction ps as [|q ps IH]; intros d Hp; [by apply elem_of_nil in Hp|].
  apply elem_of_cons in Hp as [->|Hp]; cbn [foldl].
  - apply foldl_write_keeps. unfold write. rewrite lookup_insert_eq. eauto.
  - by apply IH.
Qed.

(** What the route does with a multipart body, in terms of multer's
    verdict on it. *)
Lemma serve_upload (w : World) (o : gmap string jsval) (parts : list file_part) :
  serve w (post ["upload-example"] (Multipart o parts))
  = match receive {[ "my_files" := 3%nat ]} parts [] (disk w) with
    | Accepted stored d =>
        (ok (Json (if decide (length stored = 0)%nat then you_fail
                   else if decide (3 < length stored)%nat then you_fail
                   else all_good stored)), set_disk w d)
    | Aborted err d =>
        ({| status := error_status err; payload_of := ErrorPage err |}, set_disk w d)
    end.
Proof.
  destruct (serve_parsed w (post ["upload-example"] (Multipart o parts))) as [b ->].
  set (c := set_body _ b).
  assert (run_stack (drop 3 app) c w
          = run_chain [upload_array "my_files" 3; upload_example] (set_params c ∅) w)
    as ->.
  { transitivity (run_stack (drop 11 app) c w); [reflexivity|].
    cbn [drop app]. rewrite (run_stack_route_hit _ _ _ _ _ _ ∅) by reflexivity.
    cbn [run_chain upload_array upload_example pure_mw
         c set_params set_body fresh request post req_content files set_files].
    destruct (receive _ parts [] (disk w)) as [stored d|err d]; [|done].
    cbn [files set_files]. by repeat case_decide. }
  cbn [run_chain upload_array upload_example pure_mw
       c set_params set_body fresh request post req_content files set_files].
  destruct (receive _ parts [] (disk w)) as [stored d|err d]; [|done].
  cbn [files set_files]. by repeat case_decide.
Qed.

(** Without a multipart body multer passes, [req.files] stays unset and
    the handler rejects. *)
Lemma serve_upload_no_multipart (w : World) (ct : content) :
  (∀ o parts, ct ≠ Multipart o parts) →
  serve w (post ["upload-example"] ct) = (ok (Json you_fail), w).
Proof.
  intros Hct.
  destruct (serve_parsed w (post ["upload-example"] ct)) as [b ->].
  destruct ct as [|o|o|o parts]; try reflexivity.
  by destruct (Hct o parts).
Qed.

(** A multipart body without a file is rejected by the handler, with
    status 200. *)
Lemma serve_upload_zero (w : World) (o : gmap string jsval) (parts : list file_part) :
  files_of parts = [] →
  serve w (post ["upload-example"] (Multipart o parts)) = (ok (Json you_fail), w).
Proof.
  intros Hnone. rewrite serve_upload, (receive_fits "my_files").
  - rewrite Hnone. cbn. by destruct w.
  - rewrite Hnone. constructor.
  - rewrite Hnone. cbn. lia.
Qed.


(** More files than the limit, and multer ends the request: the
    answer is Express's error page. *)
Lemma serve_upload_overflow (w : World) (o : gmap string jsval) (parts : list file_part) :
  (3 < length (files_of parts))%nat →
  ∃ err d, serve w (post ["upload-example"] (Multipart o parts))
           = ({| status := error_status err; payload_of := ErrorPage err |}, set_disk w d).
Proof.
  intros Hlen. rewrite serve_upload.
  destruct (receive _ parts [] (disk w)) as [stored d|err d] eqn:Hrec; [|eauto].
  apply receive_accepted in Hrec as [_ Hle]. lia.
Qed.

(** All that multer's [upload.array] ever passes to [next] as an
    error is its complaint about an unexpected file, which carries no
    status of its own. *)
Lemma receive_aborted (parts : list file_part) :
  ∀ (filesLeft : gmap string nat) (stored : list File)
    (d d' : gmap (string * string) string) (err : jsval),
    receive filesLeft parts stored d = Aborted err d' →
    ∃ name, err = LIMIT_UNEXPECTED_FILE name.
Proof.
  induction parts as [|p parts IH]; intros filesLeft stored d d' err Hrec; [done|].
  cbn [receive] in Hrec. destruct (decide (p_originalname p = "")); [by eapply IH|].
  destruct (default 0%nat (filesLeft !! p_fieldname p)); [|by eapply IH].
  injection Hrec as <- _. eauto.
Qed.

Lemma unexpected_file_is_500 (name : string) :
  error_status (LIMIT_UNEXPECTED_FILE name) = 500.
Proof. reflexivity. Qed.

(** C2.  Whenever multer's [upload.array("my_files", 3)] hands a
    request on to the handler of [/upload-example], [req.files] holds
    at most 3 files, so the handler's branch for more than 3 files is
    never taken; a request with more than 3 files is ended by multer
    before the handler runs, and what the client gets is Express's
    error page for multer's error, not the handler's failure JSON. *)
Theorem multer_limit_precedes_handler (w : World) :
  (∀ (c c' : Ctx) (w' : World) (fs : list File),
     files c = None →
     upload_array "my_files" 3 c w = (Next c', w') →
     files c' = Some fs → (length fs ≤ 3)%nat)
  ∧ (∀ (o : gmap string jsval) (parts : list file_part),
       (3 < length (files_of parts))%nat →
       ∃ name d,
         serve w (post ["upload-example"] (Multipart o parts))
         = ({| status := 500; payload_of := ErrorPage (LIMIT_UNEXPECTED_FILE name) |},
            set_disk w d)).
Proof.
  split.
  - intros c c' w' fs Hnone Hup Hfs. unfold upload_array in Hup.
    destruct (req_content (request c)) as [|o|o|o parts];
      try (injection Hup as <- _; congruence).
    destruct (receive _ parts [] (disk w)) as [stored d|err d] eqn:Hrec; [|done].
    injection Hup as <- _. cbn in Hfs. injection Hfs as <-.
    pose proof (receive_accepted _ _ _ _ _ _ _ Hrec) as [Hname Hlen].
    rewrite (receive_fits "my_files") in Hrec by done.
    injection Hrec as <- _. by rewrite ?app_nil_l, length_fmap.
  - intros o parts Hlen. rewrite serve_upload.
    destruct (receive _ parts [] (disk w)) as [stored d|err d] eqn:Hrec.
    + apply receive_accepted in Hrec as [_ Hle]. lia.
    + apply receive_aborted in Hrec as [name ->]. eauto.
Qed.

Local Instance json_of_file_inj : Inj (=) (=) json_of_file.
Proof.
  intros [f1 o1 m1 d1 n1 s1] [f2 o2 m2 d2 n2 s2] Heq.
  injection Heq as -> -> -> -> -> Hs. apply Nat2Z.inj in Hs. by subst.
Qed.


End Routes.

(** * The application at work *)

(** The names the storage engine makes up, under Node's POSIX rules. *)
Example stored_names :
  (@storage_filename posix_path) <$>
    [ my_file "donkey.jpg" 1700000000000; my_file "notes.tar.gz" 1700000000001;
      my_file ".bashrc" 1700000000002; my_file "README" 1700000000003 ]
  = [ "donkey-1700000000000.jpg"; "notes.tar-1700000000001.gz";
      ".bashrc-1700000000002"; "README-1700000000003" ].
Proof. vm_compute. reflexivity. Qed.

(** The router reads a path without regard to case and lets one slash
    at its end pass. *)
Example routes_ignore_case_and_final_slash :
  @serve posix_path plain_files configured_world (get ["JSON-Example"; ""] NoBody)
    = (ok (Json json_example_body), configured_world)
  ∧ @serve posix_path plain_files configured_world (get ["json-example"; ""; ""] NoBody)
    = ({| status := 404; payload_of := NotFound |}, configured_world)
  ∧ (@serve posix_path plain_files configured_world
       (post ["UPLOAD-EXAMPLE"; ""] (Multipart ∅ two_uploads))).2
    = after_two_uploads.
Proof. split_and!; vm_compute; reflexivity. Qed.

(** C1 (the code departs from the claim).  The claim has a POST to
    [/upload-example] with more than 3 files answered with status 200
    and the failure JSON.  The handler has a branch that does so, but
    with four files in [my_files] the request never gets there:
    multer, set up for at most three, passes its error to Express and
    the answer is the error page with status 500; the three files
    stored before the fourth arrived are removed again. *)
Theorem four_files_never_reach_the_handler :
  @serve posix_path plain_files configured_world
    (post ["upload-example"] (Multipart ∅ four_uploads))
  = ({| status := 500; payload_of := ErrorPage (LIMIT_UNEXPECTED_FILE "my_files") |},
     configured_world)
  ∧ (@upload_example
       (set_files (fresh (post ["upload-example"] (Multipart ∅ four_uploads)))
          ((@handle_file posix_path) <$> four_uploads))
       configured_world).1
    = Send (ok (Json you_fail)).
Proof. split; vm_compute; reflexivity. Qed.

(** ** The theorems above at concrete requests *)

Lemma middleware_example_in_order_witness :
  addedStuff (fresh (get ["middleware-example"] NoBody)) = None
  ∧ @serve posix_path plain_files bare_world (get ["middleware-example"] NoBody)
    = (ok (Text "First middleware function run! Second middleware function run!"),
       bare_world).
Proof.
  split; [reflexivity|].
  apply (proj1 (@middleware_example_in_order posix_path plain_files bare_world NoBody
                  (fresh (get ["middleware-example"] NoBody)) eq_refl)).
Defined.

Lemma post_example_echoes_witness :
  test_form !! "your_name" = Some (JStr "Foo")
  ∧ test_form !! "your_email" = Some (JStr "fb1258@nyu.edu")
  ∧ test_form !! "agree" = Some (JStr "true")
  ∧ @serve posix_path plain_files bare_world (post ["post-example"] (UrlEncoded test_form))
    = (ok (Json (JObj [ ("status", JStr "amazing success!");
                        ("message", JStr "congratulations on sending us this data!");
                        ("your_data", JObj [ ("name", JStr "Foo");
                                             ("email", JStr "fb1258@nyu.edu");
                                             ("agree", JStr "true") ]) ])),
       bare_world).
Proof.
  split_and!; [reflexivity..|].
  apply (@post_example_echoes posix_path plain_files bare_world test_form); reflexivity.
Defined.



Lemma local_gets_idempotent_witness :
  ["html-example"] ∈ local_gets
  ∧ ∃ resp,
      (∀ ct, @serve posix_path plain_files configured_world (get ["html-example"] ct)
             = (resp, configured_world))
      ∧ (∀ rs, Forall (is_get ["html-example"]) rs →
           @serve_all posix_path plain_files configured_world rs
           = (replicate (length rs) resp, configured_world)).
Proof.
  assert (["html-example"] ∈ local_gets) as Hin
    by (apply list_elem_of_further, list_elem_of_here).
  split; [exact Hin|].
  exact (@local_gets_idempotent posix_path plain_files configured_world ["html-example"] Hin).
Defined.

Lemma multer_limit_precedes_handler_witness :
  (files (fresh (post ["upload-example"] (Multipart ∅ two_uploads))) = None
   ∧ ∃ c' w' fs,
       @upload_array posix_path "my_files" 3
         (fresh (post ["upload-example"] (Multipart ∅ two_uploads))) configured_world
       = (Next c', w')
       ∧ files c' = Some fs
       ∧ (length fs ≤ 3)%nat)
  ∧ (3 < length (files_of four_uploads))%nat
  ∧ ∃ name d,
      @serve posix_path plain_files configured_world
        (post ["upload-example"] (Multipart ∅ four_uploads))
      = ({| status := 500; payload_of := ErrorPage (LIMIT_UNEXPECTED_FILE name) |},
         set_disk configured_world d).
Proof.
  assert (3 < length (files_of four_uploads))%nat as Hfour by (vm_compute; lia).
  split_and!; [reflexivity| |exact Hfour|].
  - eexists _, _, _. split; [vm_compute; reflexivity|]. split; [reflexivity|].
    eapply (proj1 (@multer_limit_precedes_handler posix_path plain_files configured_world)
              (fresh (post ["upload-example"] (Multipart ∅ two_uploads))));
      [reflexivity|vm_compute; reflexivity|reflexivity].
  - exact (proj2 (@multer_limit_precedes_handler posix_path plain_files configured_world)
             ∅ four_uploads Hfour).
Defined.

(** * The application as a whole *)

Section Whole.

Context `{NodePath} `{ServeStatic}.

(** ** Walking the stack under an invariant *)

Lemma run_chain_respects (r : Request) (R : relation World)
    `{!Reflexive R, !Transitive R} (fns : list Middleware) :
  Forall (respects r R) fns → respects r R (run_chain fns).
Proof.
  induction 1 as [|f fns Hf _ IH]; intros c w o w' Hc Hrun; cbn [run_chain] in Hrun.
  - injection Hrun as <- <-. split; [done|]. by intros c' [= <-].
  - destruct (f c w) as [[c1| |] w1] eqn:Hfc.
    + destruct (Hf _ _ _ _ Hc Hfc) as [HR Hreq].
      destruct (IH c1 w1 o w' (Hreq _ eq_refl) Hrun) as [HR' Hreq'].
      split; [by etrans|done].
    + injection Hrun as <- <-. destruct (Hf _ _ _ _ Hc Hfc) as [HR _].
      split; [done|]. by intros c' [=].
    + injection Hrun as <- <-. destruct (Hf _ _ _ _ Hc Hfc) as [HR _].
      split; [done|]. by intros c' [=].
Qed.

Lemma run_stack_respects (r : Request) (R : relation World)
    `{!Reflexive R, !Transitive R} (stack : list Layer) :
  Forall (layer_respects r R) stack → respects r R (run_stack stack).
Proof.
  induction 1 as [|l stack Hl _ IH]; intros c w o w' Hc Hrun; cbn [run_stack] in Hrun.
  - injection Hrun as <- <-. split; [done|]. by intros c' [= <-].
  - destruct l as [mount f|m pat fns]; cbn [layer_respects] in Hl.
    + destruct (match_prefix mount (req_path (request c))) as [rest|]; [|by eapply IH].
      destruct (f rest c w) as [[c1| |] w1] eqn:Hfc.
      * destruct (Hl rest _ _ _ _ Hc Hfc) as [HR Hreq].
        destruct (IH c1 w1 o w' (Hreq _ eq_refl) Hrun) as [HR' Hreq'].
        split; [by etrans|done].
      * injection Hrun as <- <-. destruct (Hl rest _ _ _ _ Hc Hfc) as [HR _].
        split; [done|]. by intros c' [=].
      * injection Hrun as <- <-. destruct (Hl rest _ _ _ _ Hc Hfc) as [HR _].
        split; [done|]. by intros c' [=].
    + destruct (match_route pat (req_path (request c))) as [|ps|seg] eqn:Hps;
        [by eapply IH| |].
      2:{ injection Hrun as <- <-. split; [done|]. by intros c' [=]. }
      destruct (decide (req_method (request c) = m)) as [Hm|]; [|by eapply IH].
      rewrite Hc in Hm, Hps.
      pose proof (run_chain_respects r R fns (Hl Hm (ex_intro _ ps Hps))) as Hchain.
      destruct (run_chain fns (set_params c ps) w) as [[c1| |] w1] eqn:Hfc.
      * destruct (Hchain (set_params c ps) _ _ _ Hc Hfc) as [HR Hreq].
        destruct (IH (set_params c1 ∅) w1 o w' (Hreq _ eq_refl) Hrun) as [HR' Hreq'].
        split; [by etrans|done].
      * injection Hrun as <- <-.
        destruct (Hchain (set_params c ps) _ _ _ Hc Hfc) as [HR _].
        split; [done|]. by intros c' [=].
      * injection Hrun as <- <-.
        destruct (Hchain (set_params c ps) _ _ _ Hc Hfc) as [HR _].
        split; [done|]. by intros c' [=].
Qed.

Lemma run_stack_use_hit (mount : list string) (f : list string → Middleware)
    (below : list Layer) (c : Ctx) (w : World) (rest : list string) :
  match_prefix mount (req_path (request c)) = Some rest →
  run_stack (Use mount f :: below) c w =
    match f rest c w with
    | (Next c', w') => run_stack below c' w'
    | other => other
    end.
Proof. intros Hrest. cbn [run_stack]. by rewrite Hrest. Qed.

(** ** The layers of [app.js], one by one *)

Lemma pure_mw_respects (r : Request) (R : relation World) `{!Reflexive R}
    (f : Ctx → Outcome) :
  (∀ c c', f c = Next c' → request c' = request c) → respects r R (pure_mw f).
Proof.
  intros Hf c w o w' Hc [= <- <-]. split; [done|].
  intros c' Hc'. by rewrite (Hf _ _ Hc').
Qed.

Lemma reading_mw_respects (r : Request) (R : relation World) `{!Reflexive R}
    (f : World → Ctx → Outcome) :
  (∀ w c c', f w c = Next c' → request c' = request c) → respects r R (reading_mw f).
Proof.
  intros Hf c w o w' Hc [= <- <-]. split; [done|].
  intros c' Hc'. by rewrite (Hf _ _ _ Hc').
Qed.

(** Every layer but multer's keeps the world as it is and the request
    as it came; so the whole stack keeps whatever multer keeps. *)
Lemma app_respects (r : Request) (R : relation World) `{!Reflexive R} :
  (req_method r = POST → routed [Lit "upload-example"] r →
   respects r R (upload_array "my_files" 3)) →
  Forall (layer_respects r R) app.
Proof.
  intros Hmulter. unfold app.
  repeat apply Forall_cons_2; try apply Forall_nil_2; cbn [layer_respects];
    try (intros Hm Hp; repeat apply Forall_cons_2; try apply Forall_nil_2);
    try intros rest;
    try (apply pure_mw_respects; [done|]; intros c c' Hn;
         repeat case_match; by simplify_eq);
    try (apply reading_mw_respects; [done|]; intros w c c' Hn;
         repeat case_match; by simplify_eq).
  by apply Hmulter.
Qed.


(** ** What answers and what does not *)


(** ** What a request can change *)

Global Instance outside_uploads_refl : Reflexive outside_uploads.
Proof. by intros w. Qed.

Global Instance outside_uploads_trans : Transitive outside_uploads.
Proof.
  intros w1 w2 w3 (He & Hu & Hd) (He' & Hu' & Hd'). split_and!; [congruence..|].
  intros dir name Hdir. by rewrite Hd', Hd.
Qed.

Lemma remove_uploaded_other (stored : list File) (d : gmap (string * string) string)
    (k : string * string) :
  Forall (λ f, key_of f ≠ k) stored → remove_uploaded stored d !! k = d !! k.
Proof.
  induction 1 as [|f stored Hf _ IH]; [done|].
  cbn [remove_uploaded foldr]. by rewrite lookup_delete_ne.
Qed.

Lemma remove_uploaded_gone (stored : list File) (d : gmap (string * string) string)
    (f : File) :
  f ∈ stored → remove_uploaded stored d !! key_of f = None.
Proof.
  induction stored as [|g stored IH]; intros Hf; [by apply elem_of_nil in Hf|].
  cbn [remove_uploaded foldr].
  destruct (decide (key_of g = key_of f)) as [Heq|Hne].
  - unfold key_of in Heq. rewrite Heq. apply lookup_delete_eq.
  - rewrite lookup_delete_ne by done. apply IH.
    apply elem_of_cons in Hf as [->|Hf]; done.
Qed.

(** Whatever multer decides, it has only touched [public/uploads]. *)
Lemma receive_frame (parts : list file_part) :
  ∀ (filesLeft : gmap string nat) (stored : list File)
    (d : gmap (string * string) string) (dir name : string),
    dir ≠ "public/uploads" →
    Forall (λ f, destination f = "public/uploads") stored →
    match receive filesLeft parts stored d with
    | Accepted _ d' | Aborted _ d' => d' !! (dir, name) = d !! (dir, name)
    end.
Proof.
  induction parts as [|p parts IH]; intros filesLeft stored d dir name Hdir Hst; [done|].
  cbn [receive]. destruct (decide (p_originalname p = "")); [by apply IH|].
  destruct (default 0%nat (filesLeft !! p_fieldname p)).
  - apply remove_uploaded_other. eapply Forall_impl; [exact Hst|].
    intros f Hf [= Hd _]. congruence.
  - specialize (IH (<[p_fieldname p:=n0]> filesLeft) (stored ++ [handle_file p])%list
                  (<[(destination (handle_file p), filename (handle_file p)) := p_data p]> d)
                  dir name Hdir).
    destruct (receive _ parts _ _);
      (rewrite IH; [|apply Forall_app; split; [done|by repeat constructor]];
       apply lookup_insert_ne; intros [= Hd _]; by destruct Hdir).
Qed.

Lemma upload_array_frame (r : Request) :
  respects r outside_uploads (upload_array "my_files" 3).
Proof.
  intros c w o w' Hc Hup. unfold upload_array in Hup.
  destruct (req_content (request c)) as [|b|b|b parts];
    try (injection Hup as <- <-; split; [done|]; by intros c' [= <-]).
  assert (∀ dir name, dir ≠ "public/uploads" →
            match receive {[ "my_files" := 3%nat ]} parts [] (disk w) with
            | Accepted _ d' | Aborted _ d' => d' !! (dir, name) = disk w !! (dir, name)
            end) as Hframe.
  { intros dir name Hdir. by apply receive_frame. }
  destruct (receive _ parts [] (disk w)) as [stored d|err d];
    injection Hup as <- <-.
  - split; [by split_and!|]. by intros c' [= <-].
  - split; [by split_and!|]. by intros c' [=].
Qed.

Lemma upload_array_idle (r : Request) :
  (∀ o parts, req_content r ≠ Multipart o parts) →
  respects r eq (upload_array "my_files" 3).
Proof.
  intros Hct c w o w' Hc Hup. unfold upload_array in Hup. rewrite Hc in Hup.
  destruct (req_content r) as [|b|b|b parts] eqn:Hr;
    try (injection Hup as <- <-; split; [done|]; by intros c' [= <-]).
  by destruct (Hct b parts).
Qed.

Lemma serve_frame (w : World) (r : Request) : outside_uploads w (serve w r).2.
Proof.
  unfold serve. destruct (run_stack app (fresh r) w) as [o w'] eqn:Hrun. cbn.
  assert (Forall (layer_respects r outside_uploads) app) as Happ.
  { apply app_respects; [apply _|]. intros _ _. apply upload_array_frame. }
  by destruct (run_stack_respects r outside_uploads app Happ (fresh r) w o w' eq_refl Hrun).
Qed.

Lemma serve_all_frame (rs : list Request) :
  ∀ w : World, outside_uploads w (serve_all w rs).2.
Proof.
  induction rs as [|r rs IH]; intros w; [done|].
  cbn [serve_all]. pose proof (serve_frame w r) as Hr.
  destruct (serve w r) as [resp w']. specialize (IH w').
  destruct (serve_all w' rs) as [resps w'']. by etrans.
Qed.

(** X3.  Only a multipart POST to a path that the route
    [/upload-example] matches writes: every other request, whatever
    its method and path and whatever body the parsers took from it,
    leaves the environment, the upstream API and every file on the
    disk exactly as they were.  The path is one of proper segments. *)
Theorem only_uploads_write (w : World) (r : Request) :
  Forall path_segment (req_path r) →
  ¬ is_upload r → (serve w r).2 = w.
Proof.
  intros _ Hup. unfold serve.
  destruct (run_stack app (fresh r) w) as [o w'] eqn:Hrun. cbn.
  assert (Forall (layer_respects r eq) app) as Happ.
  { apply app_respects; [apply _|]. intros Hm Hp. apply upload_array_idle.
    intros b parts Hct. apply Hup. split_and!; eauto. }
  by destruct (run_stack_respects r eq app Happ (fresh r) w o w' eq_refl Hrun).
Qed.

(** X4.  No request at all, uploads included, changes the
    environment, the upstream API or a file outside
    [public/uploads]. *)
Theorem requests_stay_in_uploads (w : World) (r : Request) (dir name : string) :
  dir ≠ "public/uploads" →
  env (serve w r).2 = env w
  ∧ upstream (serve w r).2 = upstream w
  ∧ disk (serve w r).2 !! (dir, name) = disk w !! (dir, name).
Proof.
  intros Hdir. destruct (serve_frame w r) as (He & Hu & Hd). auto.
Qed.

(** X5.  None of the GET routes [/], [/html-example], [/json-example]
    and [/middleware-example] can be told what came before: after any
    run of requests at all, uploads among them, each still gives the
    response it gave at the start. *)
Theorem local_gets_unmoved (w : World) (rs : list Request) (path : list string)
    (ct : content) :
  path ∈ local_gets →
  (serve (serve_all w rs).2 (get path ct)).1 = (serve w (get path ct)).1.
Proof.
  intros Hpath. rewrite !local_get_once by done. cbn.
  destruct (serve_all_frame rs w) as (_ & _ & Hd).
  unfold local_response, html_example_response. by rewrite Hd.
Qed.

(** ** The other routes *)

Lemma error_code_range (v : jsval) (n : Z) : error_code v = Some n → 400 ≤ n < 600.
Proof.
  destruct v; cbn; try done. case_decide; [|done]. by intros [= <-].
Qed.

Lemma error_status_range (err : jsval) : 400 ≤ error_status err < 600.
Proof.
  unfold error_status. destruct err as [| | | | | |fields]; try lia.
  destruct (error_code (field "status" fields)) as [n|] eqn:Hs.
  - by eapply error_code_range.
  - destruct (error_code (field "statusCode" fields)) as [n|] eqn:Hc; cbn; [|lia].
    by eapply error_code_range.
Qed.

(** X7.  [/proxy-example] asks the one URL written into [app.js],
    whatever the environment holds.  Upstream data is forwarded with
    status 200; an upstream failure goes to Express's error handling
    and is answered with an error status between 400 and 599, never
    with 200. *)
Theorem proxy_example_surfaces_failure (w : World) (ct : content) :
  (∀ data, upstream w proxy_url = Resolved data →
     serve w (get ["proxy-example"] ct) = ({| status := 200; payload_of := Json data |}, w))
  ∧ (∀ err, upstream w proxy_url = Rejected err →
     ∃ code, 400 ≤ code < 600
       ∧ serve w (get ["proxy-example"] ct)
         = ({| status := code; payload_of := ErrorPage err |}, w)).
Proof.
  assert (serve w (get ["proxy-example"] ct)
          = (match upstream w proxy_url with
             | Resolved data => ok (Json data)
             | Rejected err => {| status := error_status err; payload_of := ErrorPage err |}
             end, w)) as ->.
  { destruct (serve_parsed w (get ["proxy-example"] ct)) as [b ->].
    set (c := set_body _ b).
    assert (run_stack (drop 3 app) c w = run_chain [proxy_example] (set_params c ∅) w)
      as ->.
    { transitivity (run_stack (drop 12 app) c w); [reflexivity|].
      cbn [drop app]. rewrite (run_stack_route_hit _ _ _ _ _ _ ∅) by reflexivity.
      cbn [run_chain proxy_example reading_mw]. fold proxy_url.
      by destruct (upstream w proxy_url). }
    cbn [run_chain proxy_example reading_mw]. fold proxy_url.
    by destruct (upstream w proxy_url). }
  split.
  - by intros data ->.
  - intros err ->. exists (error_status err). split; [apply error_status_range|done].
Qed.

(** ** Uploads *)

(** X9.  A POST to [/upload-example] that brings no file, because
    what the parsers took from it is no body, a JSON body or a form,
    or because it is multipart and none of its parts names a file, is
    answered with status 200 and the failure object, and nothing is
    written. *)
Theorem upload_without_files (w : World) (ct : content) :
  (∀ o parts, ct = Multipart o parts → files_of parts = []) →
  serve w (post ["upload-example"] ct)
  = ({| status := 200; payload_of := Json you_fail |}, w).
Proof.
  intros Hnone. destruct ct as [|o|o|o parts].
  - by apply serve_upload_no_multipart.
  - by apply serve_upload_no_multipart.
  - by apply serve_upload_no_multipart.
  - apply serve_upload_zero. by eapply Hnone.
Qed.


(** An upload that multer aborts leaves nothing behind: every file it
    had stored is unlinked. *)
Lemma receive_aborted_subset (d0 : gmap (string * string) string)
    (parts : list file_part) :
  ∀ (filesLeft : gmap string nat) (stored : list File)
    (d d' : gmap (string * string) string) (err : jsval),
    (∀ k, Forall (λ f, key_of f ≠ k) stored → d !! k = d0 !! k) →
    receive filesLeft parts stored d = Aborted err d' →
    d' ⊆ d0.
Proof.
  induction parts as [|p parts IH]; intros filesLeft stored d d' err Hinv Hrec; [done|].
  cbn [receive] in Hrec. destruct (decide (p_originalname p = "")); [by eapply IH|].
  destruct (default 0%nat (filesLeft !! p_fieldname p)).
  - injection Hrec as _ <-. apply map_subseteq_spec. intros k v Hk.
    destruct (decide (Forall (λ f, key_of f ≠ k) stored)) as [Hfresh|Hold].
    + by rewrite remove_uploaded_other, Hinv in Hk.
    + apply not_Forall_Exists in Hold; [|apply _].
      apply Exists_exists in Hold as (f & Hf & Hkey).
      apply dec_stable in Hkey. subst k.
      by rewrite remove_uploaded_gone in Hk.
  - eapply IH; [|exact Hrec]. intros k Hk.
    rewrite Forall_app, Forall_singleton in Hk. destruct Hk as [Hk Hp].
    rewrite lookup_insert_ne by done. by apply Hinv.
Qed.

(** X11.  More than three files, or a file in any field other than
    [my_files], and multer ends the request: the answer is Express's
    error page with status 500, and the disk afterwards holds no file
    it did not hold before. *)
Theorem upload_rejected_by_multer (w : World) (o : gmap string jsval)
    (parts : list file_part) :
  (3 < length (files_of parts))%nat
  ∨ Exists (λ p, p_fieldname p ≠ "my_files") (files_of parts) →
  ∃ field d,
    serve w (post ["upload-example"] (Multipart o parts))
    = ({| status := 500; payload_of := ErrorPage (LIMIT_UNEXPECTED_FILE field) |},
       set_disk w d)
    ∧ d ⊆ disk w.
Proof.
  intros Hbad. rewrite serve_upload.
  destruct (receive _ parts [] (disk w)) as [stored d|err d] eqn:Hrec.
  - apply receive_accepted in Hrec as [Hname Hlen]. destruct Hbad as [Hmany|Hfield].
    + lia.
    + apply Exists_exists in Hfield as (p & Hp & Hne).
      by rewrite Forall_forall in Hname; specialize (Hname p Hp).
  - pose proof (receive_aborted _ _ _ _ _ _ Hrec) as [field ->].
    exists field, d. split; [done|].
    by eapply (receive_aborted_subset (disk w)).
Qed.

(** ** The names of stored files *)

Lemma chars_app (s1 s2 : string) :
  String.list_ascii_of_string (s1 +:+ s2)
  = (String.list_ascii_of_string s1 ++ String.list_ascii_of_string s2)%list.
Proof. induction s1 as [|a s1 IH]; [done|]. simpl. by f_equal. Qed.

Lemma string_app_inv_tail (s1 s2 tail : string) :
  s1 +:+ tail = s2 +:+ tail → s1 = s2.
Proof.
  intros Heq. apply (f_equal String.list_ascii_of_string) in Heq.
  rewrite !chars_app in Heq. apply app_inv_tail in Heq.
  apply (f_equal String.string_of_list_ascii) in Heq.
  by rewrite !String.string_of_list_ascii_of_string in Heq.
Qed.

(** X12.  The timestamp keeps stored names apart: two files with the
    same original name, stored at different times, get different
    names. *)
Theorem stored_names_differ_by_time (p q : file_part) :
  p_originalname p = p_originalname q →
  p_now p ≠ p_now q →
  storage_filename p ≠ storage_filename q.
Proof.
  intros Hname Hnow Heq. apply Hnow. unfold storage_filename in Heq.
  rewrite Hname in Heq. cbn zeta in Heq.
  apply (inj (String.app _)) in Heq. apply (inj (String.app _)) in Heq.
  apply string_app_inv_tail in Heq. by apply (inj pretty).
Qed.



(** X15.  When [/upload-example] answers with status 200 and the
    failure object, nothing was written: a failure answer never
    leaves a file behind. *)
Theorem failure_answer_writes_nothing (w w' : World) (ct : content) :
  serve w (post ["upload-example"] ct)
    = ({| status := 200; payload_of := Json you_fail |}, w') →
  w' = w.
Proof.
  destruct ct as [|o|o|o parts];
    try (rewrite serve_upload_no_multipart by done; by intros [= <-]).
  destruct (decide (files_of parts = [])) as [Hnone|Hsome].
  { rewrite serve_upload_zero by done. by intros [= <-]. }
  rewrite serve_upload.
  destruct (receive _ parts [] (disk w)) as [stored d|err d] eqn:Hrec.
  - pose proof (receive_accepted _ _ _ _ _ _ _ Hrec) as [Hname Hlen].
    rewrite (receive_fits "my_files") in Hrec by done.
    injection Hrec as <- _. rewrite ?app_nil_l, length_fmap.
    assert (length (files_of parts) ≠ 0)%nat as Hlen'.
    { by destruct (files_of parts). }
    rewrite decide_False by done. rewrite decide_False by lia.
    by intros [=].
  - pose proof (receive_aborted _ _ _ _ _ _ Hrec) as [field ->].
    by intros [=].
Qed.

(** ** The middleware chain, taken apart *)

(** X16.  The second middleware function relies on the first having
    run: on a response whose [addedStuff] was never set it appends to
    [undefined], and the handler sends
    ["undefined Second middleware function run!"] rather than its
    fallback; run before the first, what it wrote is overwritten and
    only the first marker is sent. *)
Theorem second_middleware_needs_first (c : Ctx) (w : World) :
  addedStuff c = None →
  run_chain [second_middleware; middleware_example] c w
    = (Send {| status := 200;
               payload_of := Text "undefined Second middleware function run!" |}, w)
  ∧ run_chain [second_middleware; first_middleware; middleware_example] c w
    = (Send {| status := 200; payload_of := Text "First middleware function run!" |}, w).
Proof.
  intros Hc. split; [|reflexivity].
  cbn [run_chain second_middleware middleware_example pure_mw addedStuff set_addedStuff].
  by rewrite Hc.
Qed.

End Whole.

(** * The names and the bytes of stored files *)

Section PosixNames.

(** ** Node's [path.extname] and [path.basename] on a bare name *)













End PosixNames.

Section Stored.

Context `{ServeStatic}.

Local Existing Instance posix_path.


End Stored.



(** ** The theorems on the whole application at concrete requests *)


Lemma only_uploads_write_witness :
  Forall path_segment (req_path (post ["upload-example"] (UrlEncoded test_form)))
  ∧ ¬ is_upload (post ["upload-example"] (UrlEncoded test_form))
  ∧ (@serve posix_path plain_files configured_world
       (post ["upload-example"] (UrlEncoded test_form))).2
    = configured_world.
Proof.
  assert (Forall path_segment
            (req_path (post ["upload-example"] (UrlEncoded test_form)))) as Hok.
  { apply (bool_decide_unpack _). vm_compute. exact I. }
  assert (¬ is_upload (post ["upload-example"] (UrlEncoded test_form))) as Hup.
  { intros (_ & _ & b & parts & Hct). discriminate Hct. }
  split; [exact Hok|]. split; [exact Hup|].
  exact (@only_uploads_write posix_path plain_files configured_world _ Hok Hup).
Defined.

Lemma requests_stay_in_uploads_witness :
  "public" ≠ "public/uploads"
  ∧ disk (@serve posix_path plain_files configured_world
            (post ["upload-example"] (Multipart ∅ two_uploads))).2
      !! ("public", "some-page.html")
    = disk configured_world !! ("public", "some-page.html").
Proof.
  assert ("public" ≠ "public/uploads") as Hdir by discriminate.
  split; [exact Hdir|].
  exact (proj2 (proj2 (@requests_stay_in_uploads posix_path plain_files configured_world
                         (post ["upload-example"] (Multipart ∅ two_uploads))
                         "public" "some-page.html" Hdir))).
Defined.

Lemma local_gets_unmoved_witness :
  ["html-example"] ∈ local_gets
  ∧ (@serve posix_path plain_files
       (@serve_all posix_path plain_files configured_world
          [ post ["upload-example"] (Multipart ∅ two_uploads);
            post ["upload-example"] (Multipart ∅ four_uploads) ]).2
       (get ["html-example"] NoBody)).1
    = (@serve posix_path plain_files configured_world (get ["html-example"] NoBody)).1.
Proof.
  assert (["html-example"] ∈ local_gets) as Hin
    by (apply list_elem_of_further, list_elem_of_here).
  split; [exact Hin|].
  exact (@local_gets_unmoved posix_path plain_files configured_world _ _ NoBody Hin).
Defined.

Lemma proxy_example_surfaces_failure_witness :
  upstream configured_world proxy_url = Resolved donkey
  ∧ @serve posix_path plain_files configured_world (get ["proxy-example"] NoBody)
    = ({| status := 200; payload_of := Json donkey |}, configured_world).
Proof.
  split; [reflexivity|].
  apply (proj1 (@proxy_example_surfaces_failure posix_path plain_files configured_world NoBody)).
  reflexivity.
Defined.

Lemma upload_without_files_witness :
  (∀ o parts, Multipart ∅ [my_file "" 1700000000000] = Multipart o parts →
              files_of parts = [])
  ∧ @serve posix_path plain_files configured_world
      (post ["upload-example"] (Multipart ∅ [my_file "" 1700000000000]))
    = ({| status := 200; payload_of := Json you_fail |}, configured_world).
Proof.
  assert (∀ o parts, Multipart ∅ [my_file "" 1700000000000] = Multipart o parts →
                     files_of parts = []) as Hnone.
  { intros o parts [= _ <-]. reflexivity. }
  split; [exact Hnone|].
  exact (@upload_without_files posix_path plain_files configured_world _ Hnone).
Defined.



Lemma upload_rejected_by_multer_witness :
  ((3 < length (files_of [my_file "a.jpg" 1700000000000; stray]))%nat
   ∨ Exists (λ p, p_fieldname p ≠ "my_files")
       (files_of [my_file "a.jpg" 1700000000000; stray]))
  ∧ ∃ field d,
      @serve posix_path plain_files configured_world
        (post ["upload-example"]
           (Multipart ∅ [my_file "a.jpg" 1700000000000; stray]))
      = ({| status := 500; payload_of := ErrorPage (LIMIT_UNEXPECTED_FILE field) |},
         set_disk configured_world d)
      ∧ d ⊆ disk configured_world.
Proof.
  assert (Exists (λ p, p_fieldname p ≠ "my_files")
            (files_of [my_file "a.jpg" 1700000000000; stray])) as Hfield.
  { apply Exists_cons_tl, Exists_cons_hd. discriminate. }
  split; [right; exact Hfield|].
  exact (@upload_rejected_by_multer posix_path plain_files configured_world ∅ _
           (or_intror Hfield)).
Defined.

Lemma stored_names_differ_by_time_witness :
  p_originalname (my_file "donkey.jpg" 1700000000000)
    = p_originalname (my_file "donkey.jpg" 1700000000001)
  ∧ p_now (my_file "donkey.jpg" 1700000000000)
    ≠ p_now (my_file "donkey.jpg" 1700000000001)
  ∧ @storage_filename posix_path (my_file "donkey.jpg" 1700000000000)
    ≠ @storage_filename posix_path (my_file "donkey.jpg" 1700000000001).
Proof.
  assert (p_now (my_file "donkey.jpg" 1700000000000)
          ≠ p_now (my_file "donkey.jpg" 1700000000001)) as Hnow by discriminate.
  split_and!; [reflexivity|exact Hnow|].
  exact (@stored_names_differ_by_time posix_path
           (my_file "donkey.jpg" 1700000000000) (my_file "donkey.jpg" 1700000000001)
           eq_refl Hnow).
Defined.

Lemma second_middleware_needs_first_witness :
  addedStuff (fresh (get ["middleware-example"] NoBody)) = None
  ∧ run_chain [second_middleware; middleware_example]
      (fresh (get ["middleware-example"] NoBody)) bare_world
    = (Send {| status := 200;
               payload_of := Text "undefined Second middleware function run!" |},
       bare_world).
Proof.
  split; [reflexivity|].
  exact (proj1 (second_middleware_needs_first
                  (fresh (get ["middleware-example"] NoBody)) bare_world eq_refl)).
Defined.

Lemma failure_answer_writes_nothing_witness :
  @serve posix_path plain_files configured_world (post ["upload-example"] NoBody)
  = ({| status := 200; payload_of := Json you_fail |}, configured_world)
  ∧ configured_world = configured_world.
Proof.
  assert (@serve posix_path plain_files configured_world
            (post ["upload-example"] NoBody)
          = ({| status := 200; payload_of := Json you_fail |}, configured_world))
    as Hserve by reflexivity.
  split; [exact Hserve|].
  exact (@failure_answer_writes_nothing posix_path plain_files _ _ _ Hserve).
Defined.
